(** * proxy-optional-webdav: a shallow embedding of src/main.rs

    The program is a single-upstream HTTP reverse proxy.  [proxy_request]
    rebuilds the inbound request against the upstream base URI and forwards
    it under a 5 second [tokio::time::timeout]; failures are turned into a
    WebDAV multistatus document by [create_error_response].  [main] parses
    the command line, prints a banner, binds and serves.

    The parts of [http] and [hyper] the program relies on ([Uri::from_parts],
    [Uri::path_and_query], [Request::builder], the [timeout] race) are
    modelled with the behaviour of http 0.2 / hyper 0.14 / tokio 1; library
    functions whose result depends on the environment (IP parsing, socket
    binding) are parameters of a Section. *)

From Stdlib Require Import String Ascii List NArith ZArith Lia Bool.
From Stdlib Require Import Numbers.DecimalString.
Import ListNotations.
Open Scope string_scope.

(** ** Character helpers *)

Definition dq : string := String "034"%char EmptyString.
Definition nl : string := String "010"%char EmptyString.

(** [str::contains(char)] *)
Fixpoint has_char (c : ascii) (s : string) : bool :=
  match s with
  | EmptyString => false
  | String c' s' => if Ascii.eqb c c' then true else has_char c s'
  end.

(** [str::to_uppercase] on ASCII input (the only input it receives here:
    the reasons ["closed"] and ["timeout"]); Unicode case mapping agrees
    with the ASCII one on ASCII letters. *)
Definition ascii_upper (c : ascii) : ascii :=
  let n := nat_of_ascii c in
  if (97 <=? n)%nat && (n <=? 122)%nat then ascii_of_nat (n - 32) else c.

Fixpoint to_uppercase (s : string) : string :=
  match s with
  | EmptyString => EmptyString
  | String c s' => String (ascii_upper c) (to_uppercase s')
  end.

(** Number of (possibly overlapping) occurrences of [pat] in [s]. *)
Fixpoint count_occ_str (pat s : string) : nat :=
  match s with
  | EmptyString => if String.prefix pat s then 1 else 0
  | String _ s' =>
      (if String.prefix pat s then 1 else 0) + count_occ_str pat s'
  end.

Definition contains_str (pat s : string) : bool :=
  (0 <? count_occ_str pat s)%nat.

Definition N_to_string (n : N) : string :=
  NilEmpty.string_of_uint (N.to_uint n).

(** ** The http data model *)

Inductive Result (A E : Type) : Type :=
| Ok : A -> Result A E
| Err : E -> Result A E.
Arguments Ok {A E} _.
Arguments Err {A E} _.

(** [http::Uri]: a scheme (absent for origin- and authority-form targets),
    an authority (empty when absent) and the path-and-query data. *)
Record Uri := mkUri {
  uri_scheme : option string;
  uri_authority : string;
  uri_pq : string
}.

(** [http::uri::Parts] *)
Record Parts := mkParts {
  parts_scheme : option string;
  parts_authority : option string;
  parts_path_and_query : option string
}.

Inductive InvalidUriParts :=
| AuthorityMissing
| PathAndQueryMissing
| SchemeMissing.

(** [Uri::path_and_query]: present when the URI has a scheme or has no
    authority; an authority-form target ([CONNECT host:port]) has none. *)
Definition path_and_query (u : Uri) : option string :=
  match uri_scheme u with
  | Some _ => Some (uri_pq u)
  | None => if String.eqb (uri_authority u) "" then Some (uri_pq u) else None
  end.

(** [Uri::into_parts] *)
Definition into_parts (u : Uri) : Parts :=
  {| parts_scheme := uri_scheme u;
     parts_authority :=
       if String.eqb (uri_authority u) "" then None else Some (uri_authority u);
     parts_path_and_query :=
       match uri_scheme u with
       | Some _ => Some (uri_pq u)
       | None => if String.eqb (uri_pq u) "" then None else Some (uri_pq u)
       end |}.

(** [Uri::from_parts]: a URI with a scheme needs an authority and a
    path-and-query; one without a scheme cannot have both of the others. *)
Definition from_parts (p : Parts) : Result Uri InvalidUriParts :=
  match parts_scheme p with
  | Some _ =>
      match parts_authority p, parts_path_and_query p with
      | None, _ => Err AuthorityMissing
      | Some _, None => Err PathAndQueryMissing
      | Some a, Some pq => Ok (mkUri (parts_scheme p) a pq)
      end
  | None =>
      match parts_authority p, parts_path_and_query p with
      | Some _, Some _ => Err SchemeMissing
      | a, pq =>
          Ok (mkUri None (match a with Some a => a | None => "" end)
                     (match pq with Some pq => pq | None => "" end))
      end
  end.

(** The split [PathAndQuery] keeps: the path before the first ['?'] and the
    query after it, if there is one. *)
Fixpoint pq_split (d : string) : string * option string :=
  match d with
  | EmptyString => (EmptyString, None)
  | String c d' =>
      if Ascii.eqb c "?" then (EmptyString, Some d')
      else let (p, q) := pq_split d' in (String c p, q)
  end.

(** [PathAndQuery::path] ([""] reads as ["/"]) followed by ["?" ++ query]
    when [query()] is [Some]: what [Display for Uri] writes for the
    path-and-query. *)
Definition pq_display (d : string) : string :=
  let (p, q) := pq_split d in
  (if String.eqb p "" then "/" else p) ++
  match q with Some q => "?" ++ q | None => "" end.

(** [Display for Uri]: [scheme://] if there is a scheme, the authority, and
    the path-and-query when [has_path] (non-empty data, or a scheme). *)
Definition uri_string (u : Uri) : string :=
  let has_path := negb (String.eqb (uri_pq u) "") ||
                  match uri_scheme u with Some _ => true | None => false end in
  match uri_scheme u with Some s => s ++ "://" | None => "" end ++
  uri_authority u ++
  (if has_path then pq_display (uri_pq u) else "").

Inductive Version := HTTP_09 | HTTP_10 | HTTP_11 | HTTP_2 | HTTP_3.

(** A body stream is opaque to the proxy: it is identified, never read. *)
Definition Body := nat.

Record Request := mkRequest {
  req_method : string;
  req_uri : Uri;
  req_version : Version;
  req_headers : list (string * string);
  req_body : Body
}.

Inductive RespBody :=
| Streamed (b : Body)
| Full (s : string).

Record Response := mkResponse {
  resp_status : N;
  resp_headers : list (string * string);
  resp_body : RespBody
}.

(** The kinds of [hyper::Error] a client call can end with. *)
Inductive HyperError :=
| ErrConnect | ErrParse | ErrIncomplete | ErrIo | ErrCanceled | ErrOther.

(** ** create_error_response (main.rs lines 43-65) *)

(** The [format!] template, line by line, with [reason] and
    [reason.to_uppercase()] substituted. *)
Definition error_body (reason : string) : string :=
  "<?xml version=" ++ dq ++ "1.0" ++ dq ++ " encoding=" ++ dq ++ "utf-8" ++ dq ++ "?>" ++ nl ++
  "<d:multistatus xmlns:d=" ++ dq ++ "DAV:" ++ dq ++ ">" ++ nl ++
  "  <d:response>" ++ nl ++
  "    <d:href>/" ++ reason ++ "/</d:href>" ++ nl ++
  "    <d:propstat>" ++ nl ++
  "      <d:prop>" ++ nl ++
  "        <d:displayname>" ++ to_uppercase reason ++ "</d:displayname>" ++ nl ++
  "        <d:resourcetype><d:collection/></d:resourcetype>" ++ nl ++
  "      </d:prop>" ++ nl ++
  "      <d:status>HTTP/1.1 200 OK</d:status>" ++ nl ++
  "    </d:propstat>" ++ nl ++
  "  </d:response>" ++ nl ++
  "</d:multistatus>".

Definition content_type : string * string :=
  ("Content-Type", "application/xml; charset=utf-8").

(** The builder cannot fail: 207 is a valid status and both header strings
    are valid header names and values. *)
Definition create_error_response (reason : string) : Result Response HyperError :=
  Ok {| resp_status := 207;
        resp_headers := [content_type];
        resp_body := Full (error_body reason) |}.

(** ** The timeout race *)

(** Time in nanoseconds since dispatch. *)
Definition Duration := N.
Definition from_secs (s : N) : Duration := (s * 1000000000)%N.

(** How the future [client.request(new_req)] behaves: it becomes ready at
    some instant with its result, or never. *)
Inductive Completion :=
| Ready (t : Duration) (r : Result Response HyperError)
| Pending.

Inductive Elapsed := elapsed.

(** [tokio::time::timeout]: the inner future is polled before the deadline,
    so a result available by the deadline wins. *)
Definition timeout (d : Duration) (c : Completion)
  : Result (Result Response HyperError) Elapsed :=
  match c with
  | Ready t r => if (t <=? d)%N then Ok r else Err elapsed
  | Pending => Err elapsed
  end.

(** ** proxy_request (main.rs lines 9-41) *)

(** How a call can end: it returns its [Result], or a [.expect] panics with
    its message. *)
Inductive Outcome :=
| Ret (r : Result Response HyperError)
| Panic (msg : string).

(** Lines 15-17: the base URI's parts with the inbound path-and-query. *)
Definition compose_uri (upstream_base_uri : Uri) (req_uri : Uri)
  : Result Uri InvalidUriParts :=
  let parts := into_parts upstream_base_uri in
  let parts := {| parts_scheme := parts_scheme parts;
                  parts_authority := parts_authority parts;
                  parts_path_and_query := path_and_query req_uri |} in
  from_parts parts.

(** Lines 12-27: the request for the upstream.  [Request::builder()] starts
    from the default parts (version HTTP/1.1, no headers); method and URI are
    typed values, so the builder cannot fail; the header map is then
    replaced by the clone taken at line 12. *)
Definition outgoing_request (upstream_base_uri : Uri) (req : Request)
  : Result Request string :=
  let req_header_temp := req_headers req in
  match compose_uri upstream_base_uri (req_uri req) with
  | Err _ => Err "valid URI"
  | Ok new_uri =>
      let new_req := {| req_method := req_method req;
                        req_uri := new_uri;
                        req_version := HTTP_11;
                        req_headers := [];
                        req_body := req_body req |} in
      Ok {| req_method := req_method new_req;
            req_uri := req_uri new_req;
            req_version := req_version new_req;
            req_headers := req_header_temp;
            req_body := req_body new_req |}
  end.

(** Lines 30-40: the race and the mapping of its three outcomes. *)
Definition forward (c : Completion) : Outcome :=
  match timeout (from_secs 5) c with
  | Ok (Ok response) => Ret (Ok response)
  | Ok (Err _) => Ret (create_error_response "closed")
  | Err _ => Ret (create_error_response "timeout")
  end.

(** [upstream] is how [client.request] behaves on the request it is given. *)
Definition proxy_request (req : Request) (upstream_base_uri : Uri)
  (upstream : Request -> Completion) : Outcome :=
  match outgoing_request upstream_base_uri req with
  | Err msg => Panic msg
  | Ok new_req => forward (upstream new_req)
  end.

(** What the client receives on the connection: hyper writes the response
    the service returns; a service error or a panic of the connection task
    closes the connection with no response. *)
Definition client_responses (o : Outcome) : list Response :=
  match o with
  | Ret (Ok r) => [r]
  | Ret (Err _) => []
  | Panic _ => []
  end.

(** ** main (main.rs lines 78-151) *)

Inductive IpAddr :=
| V4 (a b c d : N)
| V6 (text : string).  (** kept in the textual form [Display] prints *)

Definition SocketAddr : Type := IpAddr * N.

(** [Display for SocketAddr] *)
Definition show_ip (ip : IpAddr) : string :=
  match ip with
  | V4 a b c d =>
      N_to_string a ++ "." ++ N_to_string b ++ "." ++ N_to_string c ++ "."
        ++ N_to_string d
  | V6 t => "[" ++ t ++ "]"
  end.

Definition show_socket_addr (sa : SocketAddr) : string :=
  show_ip (fst sa) ++ ":" ++ N_to_string (snd sa).

(** [getopts::Matches]: the free arguments and the two optional values. *)
Record Matches := mkMatches {
  free : list string;
  opt_b : option string;
  opt_l : option string
}.

(** [<u16 as FromStr>::from_str]: an optional [+], then one or more decimal
    digits, the value at most 65535. *)
Fixpoint digits_value (acc : N) (s : string) : option N :=
  match s with
  | EmptyString => Some acc
  | String c s' =>
      let n := nat_of_ascii c in
      if (48 <=? n)%nat && (n <=? 57)%nat
      then digits_value (acc * 10 + N.of_nat (n - 48))%N s'
      else None
  end.

Definition parse_u16 (s : string) : option N :=
  let s' := match s with
            | String "+"%char rest => rest
            | _ => s
            end in
  match s' with
  | EmptyString => None
  | _ => match digits_value 0 s' with
         | Some n => if (n <=? 65535)%N then Some n else None
         | None => None
         end
  end.

Open Scope nat_scope.

(** [URI_CHARS] of http's parser: the bytes allowed in an authority
    ([%] is handled on its own). *)
Definition uri_char_ok (n : nat) : bool :=
  (n =? 33) || (n =? 35) || (n =? 36) || ((38 <=? n) && (n <=? 59)) ||
  (n =? 61) || ((63 <=? n) && (n <=? 91)) || (n =? 93) || (n =? 95) ||
  ((97 <=? n) && (n <=? 122)) || (n =? 126).

(** The locals of [Authority::parse]. *)
Record AuthState := mkAuthState {
  colon_cnt : nat;
  start_bracket : bool;
  end_bracket : bool;
  has_percent : bool;
  at_sign_pos : option nat }.

Definition auth_init : AuthState := mkAuthState 0 false false false None.

(** The loop of [Authority::parse] from byte index [i]: [None] on an error,
    otherwise the index where the authority ends and the final locals. *)
Fixpoint authority_scan (s : string) (i : nat) (st : AuthState)
  : option (nat * AuthState) :=
  match s with
  | EmptyString => Some (i, st)
  | String c s' =>
      let n := nat_of_ascii c in
      let '(mkAuthState cc sb eb hp at_pos) := st in
      if negb (uri_char_ok n) then
        if n =? 37 then authority_scan s' (S i) (mkAuthState cc sb eb true at_pos)
        else None
      else if (n =? 47) || (n =? 63) || (n =? 35) then Some (i, st)
      else if n =? 58 then
        if 8 <=? cc then None
        else authority_scan s' (S i) (mkAuthState (S cc) sb eb hp at_pos)
      else if n =? 91 then
        if hp || sb then None
        else authority_scan s' (S i) (mkAuthState cc true eb hp at_pos)
      else if n =? 93 then
        if negb sb || eb then None
        else authority_scan s' (S i) (mkAuthState 0 sb true false at_pos)
      else if n =? 64 then
        authority_scan s' (S i) (mkAuthState 0 sb eb false (Some i))
      else authority_scan s' (S i) st
  end.

(** [Authority::parse]: the length of the authority at the start of [s]. *)
Definition authority_parse (s : string) : option nat :=
  match authority_scan s 0 auth_init with
  | None => None
  | Some (e, st) =>
      if xorb (start_bracket st) (end_bracket st) then None
      else if 1 <? colon_cnt st then None
      else if (0 <? e) &&
              match at_sign_pos st with
              | Some p => p =? e - 1
              | None => false
              end then None
      else if has_percent st then None
      else Some e
  end.

(** Bytes allowed in the path, and in the query, by [PathAndQuery::from_shared]. *)
Definition path_char_ok (n : nat) : bool :=
  (n =? 33) || ((36 <=? n) && (n <=? 59)) || (n =? 61) ||
  ((64 <=? n) && (n <=? 95)) || ((97 <=? n) && (n <=? 122)) ||
  (n =? 124) || (n =? 126) || (n =? 34) || (n =? 123) || (n =? 125).

Definition query_char_ok (n : nat) : bool :=
  (n =? 33) || ((36 <=? n) && (n <=? 59)) || (n =? 61) ||
  ((63 <=? n) && (n <=? 126)).

(** [PathAndQuery::from_shared]: the data kept, with a ['#'] fragment cut
    off, or [None] on a byte it refuses. *)
Fixpoint query_scan (s : string) : option string :=
  match s with
  | EmptyString => Some EmptyString
  | String c s' =>
      let n := nat_of_ascii c in
      if query_char_ok n then option_map (String c) (query_scan s')
      else if n =? 35 then Some EmptyString
      else None
  end.

Fixpoint path_scan (s : string) : option string :=
  match s with
  | EmptyString => Some EmptyString
  | String c s' =>
      let n := nat_of_ascii c in
      if n =? 63 then option_map (String c) (query_scan s')
      else if n =? 35 then Some EmptyString
      else if path_char_ok n then option_map (String c) (path_scan s')
      else None
  end.

(** [str::parse::<Uri>] on a string that starts with ["http://"]:
    [Uri::from_shared]'s length limit, [Authority::parse] on what follows
    the scheme ([parse_full] refuses an empty authority), then
    [PathAndQuery::from_shared] on the rest. *)
Definition parse_http_uri (s : string) : option Uri :=
  if 65534 <? String.length s then None
  else if String.prefix "http://" s then
    let rest := substring 7 (String.length s - 7) s in
    match authority_parse rest with
    | None => None
    | Some e =>
        if e =? 0 then None
        else match path_scan (substring e (String.length rest - e) rest) with
             | None => None
             | Some pq => Some (mkUri (Some "http") (substring 0 e rest) pq)
             end
    end
  else None.

Open Scope string_scope.

(** ** print_usage (main.rs lines 67-75) *)

(** The pieces of a string between the occurrences of [c]. *)
Fixpoint split_on (c : ascii) (s : string) : list string :=
  match s with
  | EmptyString => [EmptyString]
  | String d s' =>
      let rest := split_on c s' in
      if Ascii.eqb d c then EmptyString :: rest
      else match rest with
           | h :: t => String d h :: t
           | [] => [String d EmptyString]
           end
  end.

Fixpoint last_opt {A} (l : list A) : option A :=
  match l with
  | [] => None
  | [x] => Some x
  | _ :: l' => last_opt l'
  end.

(** [Path::file_name] on a Unix path: the last component once empty and
    ["."] components are dropped, unless that component is [".."]. *)
Definition file_name (p : string) : option string :=
  match last_opt (filter (fun x => negb (String.eqb x "" || String.eqb x "."))
                         (split_on "/" p)) with
  | None => None
  | Some x => if String.eqb x ".." then None else Some x
  end.

(** The split at the last ['.']: the text before it and after it. *)
Fixpoint split_last_dot (s : string) : option (string * string) :=
  match s with
  | EmptyString => None
  | String d s' =>
      match split_last_dot s' with
      | Some (b, a) => Some (String d b, a)
      | None => if Ascii.eqb d "." then Some (EmptyString, s') else None
      end
  end.

(** [rsplit_file_at_dot] of the standard library. *)
Definition rsplit_file_at_dot (file : string) : option string * option string :=
  if String.eqb file ".." then (Some file, None)
  else match split_last_dot file with
       | None => (None, Some file)
       | Some (before, after) =>
           if String.eqb before "" then (Some file, None)
           else (Some before, Some after)
       end.

(** [Path::file_stem]: [before.or(after)] of the split file name. *)
Definition file_stem (p : string) : option string :=
  match file_name p with
  | None => None
  | Some f => let (before, after) := rsplit_file_at_dot f in
              match before with Some b => Some b | None => after end
  end.

(** [print_usage]: the brief line it passes to [opts.usage], or the panic of
    [file_stem().unwrap()]. *)
Definition print_usage (program : string) : Result string string :=
  match file_stem program with
  | None => Err "called `Option::unwrap()` on a `None` value"
  | Some program_name =>
      Ok ("Usage: " ++ program_name ++ " REMOTE_HOST:PORT [-b BIND_ADDR] [-l LOCAL_PORT]")
  end.


(** What the process does, in order. *)
Inductive Event :=
| Stdout (line : string)
| Stderr (line : string)
| Usage (brief : string)
| Exit (code : Z)
| Bind (addr : SocketAddr)
| PanicE (msg : string)
| Serve (upstream_uri : Uri).

Section Main.

(** [str::parse::<IpAddr>] *)
Variable parse_ip : string -> option IpAddr.
(** [Server::bind]: the address actually bound (the OS picks the port when
    port 0 is asked for), or [None] when binding fails, where hyper panics. *)
Variable os_bind : SocketAddr -> option SocketAddr.

(** [print_usage(&program, opts)] followed by [std::process::exit(-1)]:
    the usage text, or the panic of [print_usage]. *)
Definition usage_then_exit (program : string) : list Event :=
  match print_usage program with
  | Ok brief => [Usage brief; Exit (-1)%Z]
  | Err msg => [PanicE msg]
  end.

(** The code after [opts.parse(&args[1..])], whose result is [parsed];
    [program] is [args[0]] (Linux gives [""] for an empty argv). *)
Definition main_trace (program : string) (parsed : Result Matches string) : list Event :=
  match parsed with
  | Err e => Stderr e :: usage_then_exit program
  | Ok matches =>
      match free matches with
      | [remote] =>
          if negb (has_char ":" remote) then
            [Stderr "A remote port is required (REMOTE_ADDR:PORT)"; Exit (-1)%Z]
          else
            match match opt_l matches with
                  | Some s => parse_u16 s
                  | None => Some 0%N
                  end with
            | None => [PanicE "aga"]
            | Some local_port =>
                match match opt_b matches with
                      | Some addr => parse_ip addr
                      | None => Some (V4 127 0 0 1)
                      end with
                | None => [PanicE "Failed to parse bind address"]
                | Some bind_addr =>
                    match parse_http_uri ("http://" ++ remote) with
                    | None => [PanicE "called `Result::unwrap()` on an `Err` value"]
                    | Some upstream_uri =>
                        let addr : SocketAddr := (bind_addr, local_port) in
                        Stdout ("The upstream is http://" ++ remote)
                        :: Bind addr
                        :: match os_bind addr with
                           | None => [PanicE "error binding"]
                           | Some _ =>
                               [Stdout ("Listening on http://" ++ show_socket_addr addr);
                                Serve upstream_uri]
                           end
                    end
                end
            end
      | _ => usage_then_exit program
      end
  end.

End Main.

Definition is_bind (e : Event) : bool :=
  match e with Bind _ => true | _ => false end.

Definition is_exit_nonzero (e : Event) : bool :=
  match e with Exit c => negb (Z.eqb c 0) | _ => false end.

(** ** Concrete inputs *)

(** The base URI [main] builds for the remote ["203.0.113.5:8080"]. *)
Definition example_base : Uri := mkUri (Some "http") "203.0.113.5:8080" "".

(** [GET /docs/report.pdf?rev=3] in origin form. *)
Definition get_report (v : Version) : Request :=
  {| req_method := "GET";
     req_uri := mkUri None "" "/docs/report.pdf?rev=3";
     req_version := v;
     req_headers := [("Host", "proxy.local:8000"); ("Authorization", "Basic xyz")];
     req_body := 1%nat |}.

(** [CONNECT example.com:443]: the target is in authority form. *)
Definition connect_req : Request :=
  {| req_method := "CONNECT";
     req_uri := mkUri None "example.com:443" "";
     req_version := HTTP_11;
     req_headers := [("Host", "example.com:443")];
     req_body := 2%nat |}.

Definition default_matches : Matches :=
  {| free := ["203.0.113.5:8080"]; opt_b := None; opt_l := None |}.

Example parse_example_base :
  parse_http_uri ("http://" ++ "203.0.113.5:8080") = Some example_base.
Proof. reflexivity. Qed.

Example parse_http_uri_examples :
  parse_http_uri ("http://" ++ "a b:1") = None /\
  parse_http_uri ("http://" ++ "h:1/x#frag") = Some (mkUri (Some "http") "h:1" "/x") /\
  parse_http_uri ("http://" ++ "h:1?q=1") = Some (mkUri (Some "http") "h:1" "?q=1") /\
  parse_http_uri ("http://" ++ "[::1]:8080") = Some (mkUri (Some "http") "[::1]:8080" "") /\
  parse_http_uri ("http://" ++ "h:1:2") = None /\
  parse_http_uri ("http://" ++ "user@:1") = Some (mkUri (Some "http") "user@:1" "") /\
  parse_http_uri ("http://" ++ "user@") = None /\
  parse_http_uri ("http://" ++ "h%41:1") = None /\
  parse_http_uri ("http://" ++ ":1") = Some (mkUri (Some "http") ":1" "") /\
  parse_http_uri ("http://" ++ "/x:1") = None /\
  parse_http_uri ("http://" ++ "h:1/a b") = None.
Proof. vm_compute. repeat split. Qed.

Example uri_string_examples :
  uri_string (mkUri (Some "http") "h:1" "?x") = "http://h:1/?x" /\
  uri_string (mkUri (Some "http") "h:1" "") = "http://h:1/" /\
  uri_string (mkUri None "example.com:443" "") = "example.com:443" /\
  uri_string (mkUri None "" "/a?b") = "/a?b".
Proof. vm_compute. repeat split. Qed.

Example get_report_uri :
  match outgoing_request example_base (get_report HTTP_11) with
  | Ok r => uri_string (req_uri r)
  | Err _ => ""
  end = "http://203.0.113.5:8080/docs/report.pdf?rev=3".
Proof. reflexivity. Qed.

Example upper_closed : to_uppercase "closed" = "CLOSED".
Proof. reflexivity. Qed.

Example parse_u16_examples :
  parse_u16 "8080" = Some 8080%N /\ parse_u16 "+1" = Some 1%N /\
  parse_u16 "65536" = None /\ parse_u16 "" = None /\ parse_u16 "+" = None.
Proof. repeat split; reflexivity. Qed.

(** ** Helper lemmas *)

Lemma proxy_request_unfold : forall req base upstream,
  proxy_request req base upstream =
  match outgoing_request base req with
  | Err msg => Panic msg
  | Ok new_req => forward (upstream new_req)
  end.
Proof. reflexivity. Qed.

Lemma forward_cases : forall c,
  (exists t r, c = Ready t (Ok r) /\ (t <=? from_secs 5)%N = true
               /\ forward c = Ret (Ok r)) \/
  (exists t e, c = Ready t (Err e) /\ (t <=? from_secs 5)%N = true
               /\ forward c = Ret (create_error_response "closed")) \/
  ((c = Pending \/ exists t r, c = Ready t r /\ (t <=? from_secs 5)%N = false)
   /\ forward c = Ret (create_error_response "timeout")).
Proof.
  intros [t [r|e]|]; unfold forward, timeout.
  - case_eq (t <=? from_secs 5)%N; intro Ht.
    + left; exists t, r; auto.
    + right; right; split; [right; exists t, (Ok r); auto | reflexivity].
  - case_eq (t <=? from_secs 5)%N; intro Ht.
    + right; left; exists t, e; auto.
    + right; right; split; [right; exists t, (Err e); auto | reflexivity].
  - right; right; auto.
Qed.

(** ** C1 *)

(** C1 (code_bug).  The race is not reached for every inbound request: for
    [CONNECT example.com:443] the inbound URI has no path-and-query, the
    composed URI is rejected and [expect("valid URI")] panics, whatever the
    upstream would do; none of the three outcomes is produced. *)
Theorem proxy_request_connect_panics : forall upstream,
  proxy_request connect_req example_base upstream = Panic "valid URI".
Proof. reflexivity. Qed.

(** ** C2 *)

(** The shape of the synthetic response for [reason], whose upper-cased
    form is [upper]. *)
Definition error_response_shape (reason upper : string) : Prop :=
  exists body,
    create_error_response reason =
      Ok {| resp_status := 207; resp_headers := [content_type];
            resp_body := Full body |} /\
    String.prefix ("<?xml version=" ++ dq ++ "1.0" ++ dq) body = true /\
    count_occ_str ("<d:multistatus xmlns:d=" ++ dq ++ "DAV:" ++ dq ++ ">") body = 1%nat /\
    count_occ_str "<d:multistatus" body = 1%nat /\
    count_occ_str "</d:multistatus>" body = 1%nat /\
    count_occ_str "<d:response>" body = 1%nat /\
    count_occ_str "</d:response>" body = 1%nat /\
    count_occ_str "<d:href>" body = 1%nat /\
    count_occ_str ("<d:href>/" ++ reason ++ "/</d:href>") body = 1%nat /\
    count_occ_str "<d:displayname>" body = 1%nat /\
    count_occ_str ("<d:displayname>" ++ upper ++ "</d:displayname>") body = 1%nat /\
    count_occ_str "<d:resourcetype><d:collection/></d:resourcetype>" body = 1%nat /\
    count_occ_str "<d:status>" body = 1%nat /\
    count_occ_str "<d:status>HTTP/1.1 200 OK</d:status>" body = 1%nat.

(** C2: for the reasons "timeout" and "closed" the synthetic response has
    status 207, the single header Content-Type: application/xml;
    charset=utf-8 and a DAV: multistatus body with exactly one response
    element, whose href is /reason/, displayname the upper-cased reason,
    resourcetype a collection and status HTTP/1.1 200 OK; and every response
    [proxy_request] returns is the upstream one or the synthetic response for
    one of these two reasons. *)
Theorem create_error_response_shape :
  error_response_shape "timeout" "TIMEOUT" /\
  error_response_shape "closed" "CLOSED" /\
  to_uppercase "timeout" = "TIMEOUT" /\ to_uppercase "closed" = "CLOSED" /\
  (forall req base upstream r,
      proxy_request req base upstream = Ret (Ok r) ->
      (exists new_req t, outgoing_request base req = Ok new_req /\
                         upstream new_req = Ready t (Ok r) /\
                         (t <=? from_secs 5)%N = true) \/
      Ok r = create_error_response "closed" \/
      Ok r = create_error_response "timeout").
Proof.
  split; [eexists; split; [reflexivity | vm_compute; repeat split] |].
  split; [eexists; split; [reflexivity | vm_compute; repeat split] |].
  split; [reflexivity |].
  split; [reflexivity |].
  intros req base upstream r H.
  rewrite proxy_request_unfold in H.
  destruct (outgoing_request base req) as [new_req|msg]; [|discriminate].
  destruct (forward_cases (upstream new_req))
    as [[t [r' [Hc [Ht Hf]]]] | [[t [e [Hc [Ht Hf]]]] | [_ Hf]]];
    rewrite Hf in H; injection H as H; subst.
  - left; exists new_req, t; auto.
  - right; left; reflexivity.
  - right; right; reflexivity.
Qed.

(** ** URI composition (C3, C6, C7) *)

Lemma string_append_assoc : forall a b c : string, (a ++ b) ++ c = a ++ b ++ c.
Proof. induction a as [|x a IH]; intros b c; simpl; [reflexivity|now rewrite IH]. Qed.

Lemma string_append_cancel_l : forall s x y : string, s ++ x = s ++ y -> x = y.
Proof. induction s as [|c s IH]; intros x y H; [exact H|injection H; apply IH]. Qed.

Lemma string_append_empty_r : forall s : string, s ++ "" = s.
Proof. induction s as [|c s IH]; simpl; [reflexivity|now rewrite IH]. Qed.

Lemma compose_uri_some : forall base req_u p,
  uri_scheme base = Some "http" -> uri_authority base <> "" ->
  path_and_query req_u = Some p ->
  compose_uri base req_u = Ok (mkUri (Some "http") (uri_authority base) p).
Proof.
  intros [sch a pq0] req_u p Hs Ha Hp. simpl in Hs, Ha. subst sch.
  unfold compose_uri, into_parts, from_parts; simpl.
  rewrite Hp. destruct (String.eqb a "") eqn:E.
  - apply String.eqb_eq in E. congruence.
  - reflexivity.
Qed.

(** The path-and-query text [Display for Uri] writes is the data itself
    when the data starts with ['/']. *)
Lemma pq_split_join : forall d p q,
  pq_split d = (p, q) ->
  p ++ match q with Some q => "?" ++ q | None => "" end = d.
Proof.
  induction d as [|c d IH]; intros p q H; cbn [pq_split] in H.
  - injection H as <- <-. reflexivity.
  - destruct (Ascii.eqb c "?") eqn:E.
    + apply Ascii.eqb_eq in E. subst c. injection H as <- <-. reflexivity.
    + destruct (pq_split d) as [p' q'] eqn:E'. injection H as <- <-.
      cbn [String.append]. f_equal. apply IH. reflexivity.
Qed.

Lemma pq_display_slash : forall p,
  String.prefix "/" p = true -> pq_display p = p.
Proof.
  intros [|c p] H; [discriminate|].
  cbn [String.prefix] in H.
  destruct (ascii_dec "/" c) as [<-|_]; [|discriminate].
  unfold pq_display. cbn [pq_split].
  replace (Ascii.eqb "/" "?") with false by reflexivity.
  destruct (pq_split p) as [p' q] eqn:E.
  replace (String.eqb (String "/" p') "") with false by reflexivity.
  cbn [String.append]. f_equal. exact (pq_split_join p p' q E).
Qed.

Lemma uri_string_http : forall a pq,
  uri_string (mkUri (Some "http") a pq) = "http://" ++ a ++ pq_display pq.
Proof.
  intros a pq. unfold uri_string. cbn [uri_scheme uri_authority uri_pq].
  rewrite orb_true_r. reflexivity.
Qed.

(** An absolute-form target [http://proxy.local?x]: its path-and-query is
    ["?x"], with an empty path. *)
Definition query_only_req : Request :=
  {| req_method := "GET";
     req_uri := mkUri (Some "http") "proxy.local" "?x";
     req_version := HTTP_11;
     req_headers := [("Host", "proxy.local")];
     req_body := 3%nat |}.

(** C3 as stated (the composed URI is http://host:port followed by [p]
    exactly) fails: for the path-and-query ["?x"] the URI written is
    http://203.0.113.5:8080/?x, since an empty path is written ["/"]. *)
Lemma query_only_target_gains_slash :
  path_and_query (req_uri query_only_req) = Some "?x" /\
  exists new_req,
    outgoing_request example_base query_only_req = Ok new_req /\
    uri_string (req_uri new_req) = "http://203.0.113.5:8080/?x" /\
    uri_string (req_uri new_req) <> "http://" ++ "203.0.113.5" ++ ":" ++ "8080" ++ "?x".
Proof.
  split; [reflexivity|].
  eexists. split; [reflexivity|]. split; [reflexivity|].
  vm_compute. discriminate.
Qed.

(** C3 (amended): against a base URI with scheme http and authority
    [host:port], the composed URI of a request with path-and-query [p] has
    scheme http, authority [host:port] and the data [p] unchanged; its text
    is http://host:port followed by [p] with an empty path written ["/"],
    which is http://host:port followed by [p] exactly when [p] starts with
    ['/']. *)
Theorem composed_uri_origin_form : forall base host port req p,
  uri_scheme base = Some "http" ->
  uri_authority base = host ++ ":" ++ port ->
  path_and_query (req_uri req) = Some p ->
  exists new_req,
    outgoing_request base req = Ok new_req /\
    uri_scheme (req_uri new_req) = Some "http" /\
    uri_authority (req_uri new_req) = host ++ ":" ++ port /\
    uri_pq (req_uri new_req) = p /\
    uri_string (req_uri new_req) = "http://" ++ host ++ ":" ++ port ++ pq_display p /\
    (String.prefix "/" p = true ->
     uri_string (req_uri new_req) = "http://" ++ host ++ ":" ++ port ++ p).
Proof.
  intros base host port req p Hs Ha Hp.
  assert (Hne : uri_authority base <> EmptyString)
    by (rewrite Ha; destruct host; discriminate).
  unfold outgoing_request.
  rewrite (compose_uri_some base (req_uri req) p Hs Hne Hp).
  eexists. split; [reflexivity|]. cbn [req_uri uri_scheme uri_authority uri_pq].
  rewrite uri_string_http, Ha, !string_append_assoc.
  repeat split. intro Hsl. rewrite (pq_display_slash p Hsl). reflexivity.
Qed.

Lemma composed_uri_origin_form_witness :
  exists new_req,
    outgoing_request example_base (get_report HTTP_11) = Ok new_req /\
    uri_scheme (req_uri new_req) = Some "http" /\
    uri_authority (req_uri new_req) = "203.0.113.5" ++ ":" ++ "8080" /\
    uri_pq (req_uri new_req) = "/docs/report.pdf?rev=3" /\
    uri_string (req_uri new_req) =
      "http://" ++ "203.0.113.5" ++ ":" ++ "8080" ++ pq_display "/docs/report.pdf?rev=3" /\
    (String.prefix "/" "/docs/report.pdf?rev=3" = true ->
     uri_string (req_uri new_req) =
       "http://" ++ "203.0.113.5" ++ ":" ++ "8080" ++ "/docs/report.pdf?rev=3").
Proof.
  apply (composed_uri_origin_form example_base "203.0.113.5" "8080" (get_report HTTP_11));
    reflexivity.
Defined.

(** ** C6 *)

(** C6 (code_bug).  An inbound target without a path-and-query
    ([CONNECT example.com:443]) is not composed to http://host:port/: the
    absent path-and-query is passed on to [Uri::from_parts], which refuses a
    URI with a scheme and no path-and-query, and [outgoing_request] ends in
    the panic of [expect("valid URI")]; nothing is forwarded. *)
Theorem absent_path_not_defaulted :
  path_and_query (req_uri connect_req) = None /\
  compose_uri example_base (req_uri connect_req) = Err PathAndQueryMissing /\
  outgoing_request example_base connect_req = Err "valid URI".
Proof. repeat split. Qed.

(** ** C7 *)

Lemma compose_uri_ok_shape : forall base r p u,
  uri_scheme base = Some "http" -> path_and_query r = Some p ->
  compose_uri base r = Ok u -> u = mkUri (Some "http") (uri_authority base) p.
Proof.
  intros [sch a pq0] r p u Hs Hp C. cbn in Hs. subst sch.
  unfold compose_uri, into_parts, from_parts in C. cbn in C. rewrite Hp in C.
  destruct (String.eqb a ""); [discriminate|]. injection C as <-. reflexivity.
Qed.

(** The absolute-form target [http://proxy.local/?x]. *)
Definition slash_query_uri : Uri := mkUri (Some "http") "proxy.local" "/?x".

(** C7 as stated fails: the distinct path-and-query strings ["?x"] and
    ["/?x"] compose to the same URI http://203.0.113.5:8080/?x. *)
Lemma query_only_and_slash_collide :
  path_and_query (req_uri query_only_req) = Some "?x" /\
  path_and_query slash_query_uri = Some "/?x" /\
  "?x" <> "/?x" /\
  exists u1 u2,
    compose_uri example_base (req_uri query_only_req) = Ok u1 /\
    compose_uri example_base slash_query_uri = Ok u2 /\
    uri_string u1 = uri_string u2.
Proof.
  split; [reflexivity|]. split; [reflexivity|]. split; [discriminate|].
  do 2 eexists. split; [reflexivity|]. split; [reflexivity|]. reflexivity.
Qed.

(** C7 (amended): against a base URI with scheme http, two composed URIs
    are equal exactly when the two path-and-query strings are written alike
    (an empty path written ["/"]); two distinct path-and-query strings that
    both start with ['/'] (every origin-form target) compose to distinct
    URIs. *)
Theorem compose_uri_injective_origin_form : forall base r1 r2 p1 p2 u1 u2,
  uri_scheme base = Some "http" ->
  path_and_query r1 = Some p1 -> path_and_query r2 = Some p2 ->
  compose_uri base r1 = Ok u1 -> compose_uri base r2 = Ok u2 ->
  (uri_string u1 = uri_string u2 <-> pq_display p1 = pq_display p2) /\
  (String.prefix "/" p1 = true -> String.prefix "/" p2 = true ->
   p1 <> p2 -> uri_string u1 <> uri_string u2).
Proof.
  intros base r1 r2 p1 p2 u1 u2 Hs H1 H2 C1 C2.
  rewrite (compose_uri_ok_shape base r1 p1 u1 Hs H1 C1),
          (compose_uri_ok_shape base r2 p2 u2 Hs H2 C2), !uri_string_http.
  assert (Hiff : "http://" ++ uri_authority base ++ pq_display p1 =
                 "http://" ++ uri_authority base ++ pq_display p2 <->
                 pq_display p1 = pq_display p2).
  { split; intro E; [|now rewrite E].
    apply string_append_cancel_l in E. exact (string_append_cancel_l _ _ _ E). }
  split; [exact Hiff|].
  intros S1 S2 Hne E. apply Hiff in E.
  rewrite (pq_display_slash p1 S1), (pq_display_slash p2 S2) in E. exact (Hne E).
Qed.

Lemma compose_uri_injective_origin_form_witness :
  exists u1 u2,
    compose_uri example_base (mkUri None "" "/a%20b") = Ok u1 /\
    compose_uri example_base (mkUri None "" "/a b") = Ok u2 /\
    (uri_string u1 = uri_string u2 <-> pq_display "/a%20b" = pq_display "/a b") /\
    (String.prefix "/" "/a%20b" = true -> String.prefix "/" "/a b" = true ->
     "/a%20b" <> "/a b" -> uri_string u1 <> uri_string u2).
Proof.
  do 2 eexists. split; [reflexivity|]. split; [reflexivity|].
  apply (compose_uri_injective_origin_form example_base (mkUri None "" "/a%20b")
           (mkUri None "" "/a b")); reflexivity.
Defined.

(** ** C4 *)

(** The request [req] with only its URI replaced. *)
Definition with_uri (req : Request) (u : Uri) : Request :=
  {| req_method := req_method req; req_uri := u; req_version := req_version req;
     req_headers := req_headers req; req_body := req_body req |}.

(** C4 as stated (only the URI differs) fails: an HTTP/1.0 request is
    forwarded as HTTP/1.1, the builder's default version. *)
Lemma outgoing_request_version_differs :
  ~ (forall base req new_req,
        outgoing_request base req = Ok new_req ->
        new_req = with_uri req (req_uri new_req)).
Proof.
  intro H.
  specialize (H example_base (get_report HTTP_10)).
  destruct (outgoing_request example_base (get_report HTTP_10)) as [r|e] eqn:E;
    [|discriminate].
  specialize (H r eq_refl).
  vm_compute in E. injection E as <-. vm_compute in H. discriminate.
Qed.

(** C4 (amended): the outgoing request has the inbound method, the inbound
    body and exactly the inbound header list (Host included, nothing added
    or removed); its URI is the composed one and its version is HTTP/1.1,
    whatever the inbound version. *)
Theorem outgoing_request_frame : forall base req new_req,
  outgoing_request base req = Ok new_req ->
  req_method new_req = req_method req /\
  req_headers new_req = req_headers req /\
  req_body new_req = req_body req /\
  compose_uri base (req_uri req) = Ok (req_uri new_req) /\
  req_version new_req = HTTP_11.
Proof.
  intros base req new_req H. unfold outgoing_request in H.
  destruct (compose_uri base (req_uri req)) as [u|e] eqn:E; [|discriminate].
  injection H as <-. cbn. auto.
Qed.

Lemma outgoing_request_frame_witness :
  exists new_req,
    outgoing_request example_base (get_report HTTP_10) = Ok new_req /\
    req_method new_req = "GET" /\
    req_headers new_req = [("Host", "proxy.local:8000"); ("Authorization", "Basic xyz")] /\
    req_body new_req = 1%nat /\
    compose_uri example_base (req_uri (get_report HTTP_10)) = Ok (req_uri new_req) /\
    req_version new_req = HTTP_11.
Proof.
  eexists. split; [reflexivity|].
  apply (outgoing_request_frame example_base (get_report HTTP_10)). reflexivity.
Defined.

(** ** C5 *)

(** C5 (code_bug).  Not every inbound request gets a response: for
    [CONNECT example.com:443] the handler panics before the upstream call
    (the defect of C1 and C6), the connection task dies and the client
    receives no response at all. *)
Theorem connect_gets_no_response : forall upstream,
  client_responses (proxy_request connect_req example_base upstream) = [].
Proof. reflexivity. Qed.

(** Every request whose target has a path-and-query does get exactly one
    response. *)
Lemma one_response_with_path : forall req base upstream p,
  uri_scheme base = Some "http" -> uri_authority base <> "" ->
  path_and_query (req_uri req) = Some p ->
  length (client_responses (proxy_request req base upstream)) = 1%nat.
Proof.
  intros req base upstream p Hs Ha Hp.
  rewrite proxy_request_unfold. unfold outgoing_request.
  rewrite (compose_uri_some base (req_uri req) p Hs Ha Hp).
  match goal with |- context [forward (upstream ?r)] =>
    destruct (forward_cases (upstream r))
      as [[t [r' [_ [_ Hf]]]] | [[t [e [_ [_ Hf]]]] | [_ Hf]]]; rewrite Hf; reflexivity
  end.
Qed.

(** ** C8 *)





(** ** C9 *)

(** The OS assigns port 49152 when port 0 is asked for. *)
Definition os_assigns_49152 (sa : SocketAddr) : option SocketAddr :=
  if (snd sa =? 0)%N then Some (fst sa, 49152%N) else Some sa.

(** C9 (code_bug).  With no [-b] and no [-l] the program binds 127.0.0.1
    port 0 (the OS picks the port), but the banner prints the requested
    address, [Listening on http://127.0.0.1:0], not the port actually
    bound. *)
Theorem default_invocation_prints_port_zero : forall parse_ip program,
  main_trace parse_ip os_assigns_49152 program (Ok default_matches) =
    [Stdout "The upstream is http://203.0.113.5:8080";
     Bind (V4 127 0 0 1, 0%N);
     Stdout "Listening on http://127.0.0.1:0";
     Serve example_base] /\
  ~ In (Stdout "Listening on http://127.0.0.1:49152")
       (main_trace parse_ip os_assigns_49152 program (Ok default_matches)).
Proof.
  intros parse_ip program. split; [reflexivity|].
  cbn. intros [H|[H|[H|[H|[]]]]]; discriminate.
Qed.

(** ** C10 *)

(** C10: [proxy_request] never returns [Err], and a failure of the upstream
    call of any kind that ends within the budget (connection refused, parse
    error of the response, ...) gives the synthetic "closed" response. *)
Theorem proxy_request_never_errs :
  (forall req base upstream e, proxy_request req base upstream <> Ret (Err e)) /\
  (forall req base upstream new_req t e,
      outgoing_request base req = Ok new_req ->
      upstream new_req = Ready t (Err e) ->
      (t <= from_secs 5)%N ->
      proxy_request req base upstream = Ret (create_error_response "closed")).
Proof.
  split.
  - intros req base upstream e H. rewrite proxy_request_unfold in H.
    destruct (outgoing_request base req) as [new_req|msg]; [|discriminate].
    destruct (forward_cases (upstream new_req))
      as [[t [r [_ [_ Hf]]]] | [[t [e' [_ [_ Hf]]]] | [_ Hf]]];
      rewrite Hf in H; discriminate.
  - intros req base upstream new_req t e Ho Hu Ht.
    rewrite proxy_request_unfold, Ho, Hu. unfold forward, timeout.
    apply N.leb_le in Ht. rewrite Ht. reflexivity.
Qed.

(** ** Further properties of the forwarding path *)

(** An upstream response ready within the 5 second budget is returned as
    it is, whatever its status, headers and body. *)
Theorem upstream_response_passes_through : forall req base upstream new_req t r,
  outgoing_request base req = Ok new_req ->
  upstream new_req = Ready t (Ok r) ->
  (t <= from_secs 5)%N ->
  proxy_request req base upstream = Ret (Ok r).
Proof.
  intros req base upstream new_req t r Ho Hu Ht.
  rewrite proxy_request_unfold, Ho, Hu. unfold forward, timeout.
  apply N.leb_le in Ht. rewrite Ht. reflexivity.
Qed.

Lemma upstream_response_passes_through_witness :
  proxy_request (get_report HTTP_11) example_base
    (fun _ => Ready (from_secs 5) (Ok (mkResponse 404 [] (Streamed 7))))
  = Ret (Ok (mkResponse 404 [] (Streamed 7))).
Proof.
  apply (upstream_response_passes_through _ _ _
           (match outgoing_request example_base (get_report HTTP_11) with
            | Ok r => r | Err _ => get_report HTTP_11 end) (from_secs 5));
    [reflexivity | reflexivity | lia].
Defined.

(** An upstream call that is still pending at the deadline, or whose
    result (success or failure) comes later than 5 seconds, gives the
    synthetic "timeout" response. *)
Theorem late_or_pending_is_timeout : forall req base upstream new_req,
  outgoing_request base req = Ok new_req ->
  (upstream new_req = Pending \/
   exists t r, upstream new_req = Ready t r /\ (from_secs 5 < t)%N) ->
  proxy_request req base upstream = Ret (create_error_response "timeout").
Proof.
  intros req base upstream new_req Ho Hu.
  rewrite proxy_request_unfold, Ho. unfold forward, timeout.
  destruct Hu as [-> | [t [r [-> Ht]]]]; [reflexivity|].
  replace (t <=? from_secs 5)%N with false by (symmetry; apply N.leb_gt; exact Ht).
  reflexivity.
Qed.

Lemma late_or_pending_is_timeout_witness :
  proxy_request (get_report HTTP_11) example_base
    (fun _ => Ready (from_secs 5 + 1)%N (Ok (mkResponse 200 [] (Streamed 7))))
  = Ret (create_error_response "timeout").
Proof.
  apply (late_or_pending_is_timeout _ _ _
           (match outgoing_request example_base (get_report HTTP_11) with
            | Ok r => r | Err _ => get_report HTTP_11 end)); [reflexivity|].
  right. exists (from_secs 5 + 1)%N, (Ok (mkResponse 200 [] (Streamed 7))).
  split; [reflexivity | unfold from_secs; lia].
Defined.

(** Against a base URI with scheme http and an authority, [proxy_request]
    panics exactly for the inbound targets that have no path-and-query;
    every other request is forwarded and answered. *)
Theorem proxy_request_panics_iff_no_path : forall req base upstream,
  uri_scheme base = Some "http" -> uri_authority base <> "" ->
  (exists msg, proxy_request req base upstream = Panic msg) <->
  path_and_query (req_uri req) = None.
Proof.
  intros req base upstream Hs Ha. split.
  - intros [msg H]. destruct (path_and_query (req_uri req)) as [p|] eqn:Hp; [|reflexivity].
    exfalso. rewrite proxy_request_unfold in H. unfold outgoing_request in H.
    rewrite (compose_uri_some base (req_uri req) p Hs Ha Hp) in H.
    match type of H with context [forward (upstream ?r)] =>
      destruct (forward_cases (upstream r))
        as [[t [r' [_ [_ Hf]]]] | [[t [e [_ [_ Hf]]]] | [_ Hf]]]; rewrite Hf in H;
        discriminate
    end.
  - intro Hp. exists "valid URI". rewrite proxy_request_unfold.
    unfold outgoing_request, compose_uri, into_parts, from_parts.
    destruct base as [sch a pq0]; cbn in Hs, Ha |- *. subst sch.
    rewrite Hp. destruct (String.eqb a "") eqn:E; [apply String.eqb_eq in E; congruence|].
    reflexivity.
Qed.

Lemma proxy_request_panics_iff_no_path_witness :
  (exists msg, proxy_request connect_req example_base (fun _ => Pending) = Panic msg) <->
  path_and_query (req_uri connect_req) = None.
Proof.
  apply proxy_request_panics_iff_no_path; [reflexivity | discriminate].
Defined.

Lemma one_response_with_path_witness :
  length (client_responses
            (proxy_request (get_report HTTP_2) example_base (fun _ => Pending))) = 1%nat.
Proof.
  apply (one_response_with_path _ _ _ "/docs/report.pdf?rev=3");
    [reflexivity | discriminate | reflexivity].
Defined.

(** ** The local port option: [<u16 as FromStr>::from_str] *)

Fixpoint parse_u16_roundtrip_from (fuel : nat) (n : N) : bool :=
  match fuel with
  | O => true
  | S fuel' =>
      match parse_u16 (N_to_string n) with
      | Some m => N.eqb m n
      | None => false
      end && parse_u16_roundtrip_from fuel' (N.succ n)
  end.

Lemma parse_u16_roundtrip_from_spec : forall fuel n m,
  parse_u16_roundtrip_from fuel n = true ->
  (n <= m)%N -> (m < n + N.of_nat fuel)%N ->
  parse_u16 (N_to_string m) = Some m.
Proof.
  induction fuel as [|fuel IH]; intros n m H Hlo Hhi; [lia|].
  cbn [parse_u16_roundtrip_from] in H. apply andb_true_iff in H as [H1 H2].
  destruct (N.eq_dec n m) as [<-|Hne].
  - destruct (parse_u16 (N_to_string n)) as [k|]; [|discriminate].
    apply N.eqb_eq in H1. now subst.
  - apply (IH (N.succ n)); [exact H2 | lia | lia].
Qed.

Lemma parse_u16_roundtrip_check_ok : parse_u16_roundtrip_from (N.to_nat 65536) 0 = true.
Proof. vm_compute. reflexivity. Qed.

(** Every port 0..65535 written in decimal, as [Display] writes it, is
    read back by the [-l] parser as itself. *)
Theorem parse_u16_roundtrip : forall n,
  (n <= 65535)%N -> parse_u16 (N_to_string n) = Some n.
Proof.
  intros n Hn.
  apply (parse_u16_roundtrip_from_spec (N.to_nat 65536) 0 n parse_u16_roundtrip_check_ok);
    rewrite ?N2Nat.id; lia.
Qed.

Lemma parse_u16_roundtrip_witness : parse_u16 (N_to_string 8080) = Some 8080%N.
Proof. apply parse_u16_roundtrip. apply N.leb_le. reflexivity. Defined.

(** ** Further properties of main *)

Lemma authority_scan_bound : forall s i st e st',
  authority_scan s i st = Some (e, st') -> e <= i + String.length s.
Proof.
  induction s as [|c s IH]; intros i [cc sb eb hp at_pos] e st' H;
    cbn [authority_scan] in H.
  - injection H as <- _. cbn. lia.
  - cbn [String.length].
    repeat match type of H with context [if ?b then _ else _] => destruct b end;
      try discriminate;
      first [ injection H as <- _; lia | apply IH in H; lia ].
Qed.

Lemma authority_parse_bound : forall s e,
  authority_parse s = Some e -> e <= String.length s.
Proof.
  intros s e H. unfold authority_parse in H.
  destruct (authority_scan s 0 auth_init) as [[e0 st]|] eqn:E; [|discriminate].
  repeat match type of H with context [if ?b then _ else _] => destruct b end;
    try discriminate.
  injection H as <-. apply authority_scan_bound in E. lia.
Qed.

(** A URI [parse_http_uri] accepts has scheme http and a non-empty
    authority. *)
Lemma parse_http_uri_shape : forall s u,
  parse_http_uri s = Some u ->
  uri_scheme u = Some "http" /\ uri_authority u <> "".
Proof.
  intros s u H. unfold parse_http_uri in H.
  destruct (65534 <? String.length s)%nat; [discriminate|].
  destruct (String.prefix "http://" s); [|discriminate].
  set (rest := substring 7 (String.length s - 7) s) in H.
  destruct (authority_parse rest) as [e|] eqn:Ha; [|discriminate].
  destruct (e =? 0)%nat eqn:He; [discriminate|].
  destruct (path_scan (substring e (String.length rest - e) rest)); [|discriminate].
  injection H as <-. cbn [uri_scheme uri_authority]. split; [reflexivity|].
  apply authority_parse_bound in Ha. apply Nat.eqb_neq in He.
  destruct rest as [|c r]; [cbn in Ha; lia|].
  destruct e as [|e]; [lia|]. discriminate.
Qed.

(** The trace of [print_usage] and the exit binds nothing and serves
    nothing. *)
Lemma usage_then_exit_inert : forall program e,
  In e (usage_then_exit program) -> is_bind e = false /\ forall b, e <> Serve b.
Proof.
  intros program e H. unfold usage_then_exit in H.
  destruct (print_usage program); cbn [In] in H;
    repeat (destruct H as [<-|H]; [split; [reflexivity|discriminate]|]); destruct H.
Qed.

(** [main] binds a socket only after the command line has parsed, names
    exactly one remote containing [:], and the [-l] value (default 0), the
    [-b] value (default 127.0.0.1) and the upstream URI have parsed (under
    http's checks of the authority and the path-and-query); the
    bound address is the one these give, and the line "The upstream is
    http://REMOTE" is printed just before binding. *)
Theorem main_binds_only_valid_config : forall parse_ip os_bind program parsed addr,
  In (Bind addr) (main_trace parse_ip os_bind program parsed) ->
  exists m remote base rest,
    parsed = Ok m /\ free m = [remote] /\ has_char ":" remote = true /\
    parse_http_uri ("http://" ++ remote) = Some base /\
    match opt_l m with
    | None => snd addr = 0%N
    | Some s => parse_u16 s = Some (snd addr)
    end /\
    match opt_b m with
    | None => fst addr = V4 127 0 0 1
    | Some a => parse_ip a = Some (fst addr)
    end /\
    main_trace parse_ip os_bind program parsed =
      Stdout ("The upstream is http://" ++ remote) :: Bind addr :: rest.
Proof.
  intros parse_ip os_bind program [[fr ob ol]|e] addr H;
    [|cbn [main_trace In] in H; destruct H as [H|H];
      [discriminate | apply usage_then_exit_inert in H; destruct H; discriminate]].
  destruct fr as [|remote [|x fr]];
    [cbn [main_trace free] in H; apply usage_then_exit_inert in H;
       destruct H; discriminate| |
     cbn [main_trace free] in H; apply usage_then_exit_inert in H;
       destruct H; discriminate].
  unfold main_trace in H |- *. cbn [free opt_b opt_l] in H |- *.
  destruct (has_char ":" remote) eqn:Hc; cbn [negb] in H |- *;
    [|destruct H as [H|[H|[]]]; discriminate].
  destruct (match ol with Some s => parse_u16 s | None => Some 0%N end)
    as [port|] eqn:Hport; [|destruct H as [H|[]]; discriminate].
  destruct (match ob with Some a => parse_ip a | None => Some (V4 127 0 0 1) end)
    as [ip|] eqn:Hip; [|destruct H as [H|[]]; discriminate].
  destruct (parse_http_uri ("http://" ++ remote)) as [base|] eqn:Hb;
    [|destruct H as [H|[]]; discriminate].
  assert (Haddr : addr = (ip, port)).
  { destruct H as [H|[H|H]]; [discriminate | now injection H |].
    destruct (os_bind (ip, port)); cbn in H;
      repeat (destruct H as [H|H]; [discriminate|]); destruct H. }
  subst addr.
  eexists (mkMatches [remote] ob ol), remote, base, _.
  split; [reflexivity|]. split; [reflexivity|]. split; [exact Hc|].
  split; [exact Hb|].
  split; [destruct ol; cbn; congruence|].
  split; [destruct ob; cbn; congruence|].
  reflexivity.
Qed.

Lemma main_binds_only_valid_config_witness :
  exists m remote base rest,
    (Ok default_matches : Result Matches string) = Ok m /\ free m = [remote] /\ has_char ":" remote = true /\
    parse_http_uri ("http://" ++ remote) = Some base /\
    match opt_l m with
    | None => snd (V4 127 0 0 1, 0%N) = 0%N
    | Some s => parse_u16 s = Some (snd (V4 127 0 0 1, 0%N))
    end /\
    match opt_b m with
    | None => fst (V4 127 0 0 1, 0%N) = V4 127 0 0 1
    | Some a => (fun _ : string => @None IpAddr) a = Some (fst (V4 127 0 0 1, 0%N))
    end /\
    main_trace (fun _ => None) os_assigns_49152 "proxy" (Ok default_matches) =
      Stdout ("The upstream is http://" ++ remote) :: Bind (V4 127 0 0 1, 0%N) :: rest.
Proof.
  apply (main_binds_only_valid_config (fun _ => None) os_assigns_49152 "proxy").
  cbn. right. left. reflexivity.
Defined.


(** [main] serves only once the bind has succeeded and the lines "The
    upstream is ..." and "Listening on ..." are printed; the base URI it
    hands to [proxy_request] is the parse of http://REMOTE, and every inbound
    request with a path-and-query is forwarded to http://AUTHORITY followed
    by that path-and-query as [Display for Uri] writes it (an empty path
    written ["/"]). *)
Theorem main_serves_parsed_remote : forall parse_ip os_bind program parsed base,
  In (Serve base) (main_trace parse_ip os_bind program parsed) ->
  exists m remote addr bound,
    parsed = Ok m /\ free m = [remote] /\
    parse_http_uri ("http://" ++ remote) = Some base /\
    os_bind addr = Some bound /\
    main_trace parse_ip os_bind program parsed =
      [Stdout ("The upstream is http://" ++ remote); Bind addr;
       Stdout ("Listening on http://" ++ show_socket_addr addr); Serve base] /\
    (forall req p, path_and_query (req_uri req) = Some p ->
       exists new_req, outgoing_request base req = Ok new_req /\
         uri_string (req_uri new_req) = "http://" ++ uri_authority base ++ pq_display p).
Proof.
  intros parse_ip os_bind program [[fr ob ol]|e] base H;
    [|cbn [main_trace In] in H; destruct H as [H|H];
      [discriminate | apply usage_then_exit_inert in H; destruct H as [_ H]; exfalso; exact (H base eq_refl)]].
  destruct fr as [|remote [|x fr]];
    [cbn [main_trace free] in H; apply usage_then_exit_inert in H;
       destruct H as [_ H]; exfalso; exact (H base eq_refl)| |
     cbn [main_trace free] in H; apply usage_then_exit_inert in H;
       destruct H as [_ H]; exfalso; exact (H base eq_refl)].
  unfold main_trace in H |- *. cbn [free opt_b opt_l] in H |- *.
  destruct (has_char ":" remote) eqn:Hc; cbn [negb] in H |- *;
    [|destruct H as [H|[H|[]]]; discriminate].
  destruct (match ol with Some s => parse_u16 s | None => Some 0%N end)
    as [port|] eqn:Hport; [|destruct H as [H|[]]; discriminate].
  destruct (match ob with Some a => parse_ip a | None => Some (V4 127 0 0 1) end)
    as [ip|] eqn:Hip; [|destruct H as [H|[]]; discriminate].
  destruct (parse_http_uri ("http://" ++ remote)) as [base'|] eqn:Hb;
    [|destruct H as [H|[]]; discriminate].
  destruct (os_bind (ip, port)) as [bound|] eqn:Hbind;
    [|cbn in H; repeat (destruct H as [H|H]; [discriminate|]); destruct H].
  assert (base' = base) as <-.
  { cbn in H. repeat (destruct H as [H|H]; [try (injection H; auto); discriminate|]).
    destruct H. }
  exists (mkMatches [remote] ob ol), remote, (ip, port), bound.
  split; [reflexivity|]. split; [reflexivity|]. split; [exact Hb|].
  split; [exact Hbind|]. split; [reflexivity|].
  intros req p Hp.
  destruct (parse_http_uri_shape _ _ Hb) as [Hs Ha].
  unfold outgoing_request. rewrite (compose_uri_some base' (req_uri req) p Hs Ha Hp).
  eexists. split; [reflexivity|]. cbn [req_uri]. apply uri_string_http.
Qed.

Lemma main_serves_parsed_remote_witness :
  exists m remote addr bound,
    (Ok default_matches : Result Matches string) = Ok m /\ free m = [remote] /\
    parse_http_uri ("http://" ++ remote) = Some example_base /\
    os_assigns_49152 addr = Some bound /\
    main_trace (fun _ => None) os_assigns_49152 "proxy" (Ok default_matches) =
      [Stdout ("The upstream is http://" ++ remote); Bind addr;
       Stdout ("Listening on http://" ++ show_socket_addr addr); Serve example_base] /\
    (forall req p, path_and_query (req_uri req) = Some p ->
       exists new_req, outgoing_request example_base req = Ok new_req /\
         uri_string (req_uri new_req) =
           "http://" ++ uri_authority example_base ++ pq_display p).
Proof.
  apply (main_serves_parsed_remote (fun _ => None) os_assigns_49152 "proxy").
  cbn. right. right. right. left. reflexivity.
Defined.


Example print_usage_examples :
  print_usage "/usr/local/bin/proxy-optional-webdav" =
    Ok "Usage: proxy-optional-webdav REMOTE_HOST:PORT [-b BIND_ADDR] [-l LOCAL_PORT]" /\
  print_usage "target/release/proxy.exe" =
    Ok "Usage: proxy REMOTE_HOST:PORT [-b BIND_ADDR] [-l LOCAL_PORT]" /\
  print_usage "./.hidden" = Ok "Usage: .hidden REMOTE_HOST:PORT [-b BIND_ADDR] [-l LOCAL_PORT]" /\
  print_usage "bin/proxy/." = Ok "Usage: proxy REMOTE_HOST:PORT [-b BIND_ADDR] [-l LOCAL_PORT]" /\
  print_usage "" = Err "called `Option::unwrap()` on a `None` value" /\
  print_usage "/" = Err "called `Option::unwrap()` on a `None` value" /\
  print_usage "bin/.." = Err "called `Option::unwrap()` on a `None` value".
Proof. repeat split. Qed.

(** [print_usage] panics exactly when the program path has no final file
    name (it is empty, only slashes and dots, or ends in [..]); otherwise it
    always produces a usage line. *)
Theorem print_usage_panics_iff_no_file_name : forall program,
  (exists msg, print_usage program = Err msg) <-> file_name program = None.
Proof.
  intro program. unfold print_usage, file_stem.
  destruct (file_name program) as [f|]; [|split; [reflexivity | eexists; reflexivity]].
  split; [|discriminate]. intros [msg H]. exfalso.
  unfold rsplit_file_at_dot in H.
  destruct (String.eqb f ".."); [discriminate|].
  destruct (split_last_dot f) as [[b a]|]; [|discriminate].
  destruct (String.eqb b ""); discriminate.
Qed.

Lemma split_on_nonnil : forall c s, split_on c s <> [].
Proof.
  intros c [|d s]; cbn; [discriminate|].
  destruct (Ascii.eqb d c); [discriminate|].
  destruct (split_on c s); discriminate.
Qed.

Lemma split_on_app : forall c a b,
  split_on c (a ++ String c b) = (split_on c a ++ split_on c b)%list.
Proof.
  intros c a b. induction a as [|d a IH]; cbn.
  - rewrite Ascii.eqb_refl. reflexivity.
  - rewrite IH. destruct (Ascii.eqb d c); [reflexivity|].
    destruct (split_on c a) eqn:E; [exfalso; exact (split_on_nonnil c a E)|].
    reflexivity.
Qed.

Lemma split_on_plain : forall c x, has_char c x = false -> split_on c x = [x].
Proof.
  intros c x. induction x as [|d x IH]; intro H; [reflexivity|].
  cbn in H |- *. rewrite Ascii.eqb_sym.
  destruct (Ascii.eqb c d); [discriminate|]. rewrite (IH H). reflexivity.
Qed.

Lemma last_opt_app_single : forall {A} (l : list A) x, last_opt (l ++ [x])%list = Some x.
Proof.
  intros A l x. induction l as [|y l IH]; [reflexivity|].
  cbn. rewrite IH. destruct (l ++ [x])%list eqn:E; [destruct l; discriminate|reflexivity].
Qed.

Lemma has_char_app : forall c a b,
  has_char c (a ++ b) = has_char c a || has_char c b.
Proof.
  intros c a b. induction a as [|d a IH]; [reflexivity|].
  cbn. rewrite IH. destruct (Ascii.eqb c d); reflexivity.
Qed.

(** A plain name (non-empty, no ['/'], first character not ['.']). *)
Definition plain_name (f : string) : bool :=
  match f with
  | EmptyString => false
  | String d _ => negb (Ascii.eqb d ".") && negb (has_char "/" f)
  end.

Lemma file_name_last : forall dir f,
  plain_name f = true -> file_name (dir ++ "/" ++ f) = Some f.
Proof.
  intros dir f Hf. unfold file_name.
  destruct f as [|d f']; [discriminate|].
  cbn [plain_name] in Hf. apply andb_true_iff in Hf as [Hd Hs].
  apply negb_true_iff in Hs.
  change ("/" ++ String d f') with (String "/" (String d f')).
  rewrite split_on_app, (split_on_plain _ _ Hs), filter_app. cbn [filter].
  replace (String.eqb (String d f') "" || String.eqb (String d f') ".") with false.
  2:{ symmetry. apply orb_false_iff. split; apply String.eqb_neq; intro E;
        [discriminate|]. injection E as E1 E2. subst d. cbn in Hd. discriminate Hd. }
  cbn [negb]. rewrite last_opt_app_single.
  replace (String.eqb (String d f') "..") with false; [reflexivity|].
  symmetry. apply String.eqb_neq. intro E. injection E as E _. subst d.
  cbn in Hd. discriminate Hd.
Qed.

Lemma split_last_dot_none : forall s, has_char "." s = false -> split_last_dot s = None.
Proof.
  induction s as [|d s IH]; intro H; [reflexivity|].
  cbn [has_char split_last_dot] in H |- *. rewrite (Ascii.eqb_sym d ".").
  destruct (Ascii.eqb "." d); [discriminate|]. rewrite (IH H). reflexivity.
Qed.

Lemma split_last_dot_ext : forall name ext,
  has_char "." name = false -> has_char "." ext = false ->
  split_last_dot (name ++ "." ++ ext) = Some (name, ext).
Proof.
  induction name as [|d name IH]; intros ext Hn He.
  - cbn [append split_last_dot]. rewrite (split_last_dot_none ext He). reflexivity.
  - cbn [has_char] in Hn. cbn [append split_last_dot].
    destruct (Ascii.eqb "." d); [discriminate|].
    change (String "." ext) with ("." ++ ext). rewrite (IH ext Hn He). reflexivity.
Qed.

Lemma plain_name_app : forall name x,
  plain_name name = true -> has_char "/" x = false -> plain_name (name ++ x) = true.
Proof.
  intros [|d n] x Hp Hx; [discriminate|].
  change (negb (Ascii.eqb d ".") && negb (has_char "/" (String d n ++ x)) = true).
  rewrite has_char_app, Hx, orb_false_r. exact Hp.
Qed.

(** The usage line names the program by the final component of its path
    with the last extension removed: for dir/NAME.EXT and dir/NAME, where
    NAME is plain and neither part contains ['.'] or ['/'], it reads
    "Usage: NAME REMOTE_HOST:PORT [-b BIND_ADDR] [-l LOCAL_PORT]". *)
Theorem print_usage_program_stem : forall dir name ext,
  plain_name name = true -> has_char "." name = false ->
  has_char "/" ext = false -> has_char "." ext = false ->
  print_usage (dir ++ "/" ++ name ++ "." ++ ext) =
    Ok ("Usage: " ++ name ++ " REMOTE_HOST:PORT [-b BIND_ADDR] [-l LOCAL_PORT]") /\
  print_usage (dir ++ "/" ++ name) =
    Ok ("Usage: " ++ name ++ " REMOTE_HOST:PORT [-b BIND_ADDR] [-l LOCAL_PORT]").
Proof.
  intros dir name ext Hp Hn Hs He.
  assert (Hne : name <> "") by (destruct name; [discriminate|congruence]).
  assert (Hdd : forall x, String.eqb (name ++ x) ".." = false).
  { intro x. apply String.eqb_neq. intro E.
    destruct name as [|d n']; [congruence|]. injection E as E1 _. subst d.
    cbn in Hn. discriminate Hn. }
  unfold print_usage, file_stem. split.
  - rewrite file_name_last.
    + unfold rsplit_file_at_dot. rewrite Hdd, (split_last_dot_ext _ _ Hn He).
      destruct (String.eqb name "") eqn:E; [apply String.eqb_eq in E; congruence|].
      reflexivity.
    + apply plain_name_app; [exact Hp|]. exact Hs.
  - rewrite (file_name_last dir name Hp).
    unfold rsplit_file_at_dot.
    pose proof (Hdd "") as H0. rewrite string_append_empty_r in H0. rewrite H0.
    rewrite (split_last_dot_none _ Hn). reflexivity.
Qed.

Lemma print_usage_program_stem_witness :
  print_usage ("target/release" ++ "/" ++ "proxy" ++ "." ++ "exe") =
    Ok ("Usage: " ++ "proxy" ++ " REMOTE_HOST:PORT [-b BIND_ADDR] [-l LOCAL_PORT]") /\
  print_usage ("target/release" ++ "/" ++ "proxy") =
    Ok ("Usage: " ++ "proxy" ++ " REMOTE_HOST:PORT [-b BIND_ADDR] [-l LOCAL_PORT]").
Proof. apply print_usage_program_stem; reflexivity. Defined.
